(** * Cricbuzz matches dashboard: the data loader and its aggregations

    A shallow embedding of [cricket_project/app.py].  The script reads the
    matches table with pandas, back-fills the columns the pages rely on,
    parses the start dates, and then computes the KPIs and the frequency
    tables shown on the "KPIs & Metrics" and "Visualizations" pages.

    The pandas operations the script calls ([read_csv], [to_datetime],
    [notnull], [any], [str.lower], [mode], [value_counts], [concat],
    [groupby(...).size()], [head]) are modelled on the fragment of data the
    script feeds them: text columns with missing cells, and one column of
    timestamps.  Exceptions are explicit: every operation that can raise in
    Python returns a [result].

    Strings are byte strings: their order is the order of the bytes, and
    [str.lower] changes the ASCII letters only.  The string parser behind
    [to_datetime] is a parameter of the loader; the results hold for every
    parser, and [parse_iso_date] is one to run the dashboard with. *)

From stdpp Require Import gmap strings list sorting.
From Stdlib Require Import ZArith Lia Ascii.

Local Open Scope Z_scope.

(** ** Exceptions *)

Inductive exn :=
| KeyError (key : string)
| AttributeError (msg : string)
| ValueError (msg : string).

Inductive result (A : Type) :=
| Ok (a : A)
| Raise (e : exn).
Arguments Ok {A} a.
Arguments Raise {A} e.

#[global] Instance result_ret : MRet result := λ A, @Ok A.
#[global] Instance result_bind : MBind result := λ A B f r,
  match r with Ok a => f a | Raise e => Raise e end.
#[global] Instance result_fmap : FMap result := λ A B f r,
  match r with Ok a => Ok (f a) | Raise e => Raise e end.

(** ** Values, series and frames *)

(** A [datetime64[ns]] value: nanoseconds since 1970-01-01T00:00. *)
Record Timestamp := { ns : Z }.

(** What a cell can hold: a Python [str] or a timestamp.  A missing cell
    ([None], [NaN], [NaT]) is [None] of [option scalar]. *)
Inductive scalar :=
| StrVal (s : string)
| TsVal (t : Timestamp).

Inductive Dtype := object | datetime64.

Record Series := { dtype : Dtype; values : list (option scalar) }.

(** A frame: the length of its index and its columns by label. *)
Record DataFrame := { index_len : nat; columns : gmap string Series }.

(** The parsed content of a CSV file of text fields: the number of data
    rows and the fields of every column, an empty field being [None]. *)
Record CsvFile := { csv_rows : nat; csv_columns : gmap string (list (option string)) }.

#[global] Instance Timestamp_eq_dec : EqDecision Timestamp.
Proof. solve_decision. Defined.
#[global] Instance scalar_eq_dec : EqDecision scalar.
Proof. solve_decision. Defined.
#[global] Instance Dtype_eq_dec : EqDecision Dtype.
Proof. solve_decision. Defined.

(** Every column of a file has one field per row. *)
Definition csv_wf (f : CsvFile) : Prop :=
  map_Forall (λ _ xs, length xs = csv_rows f) (csv_columns f).

(** ** Calendar arithmetic on timestamps *)

Definition ns_per_day : Z := 86400 * 1000000000.

(** Days since the epoch to (year, month, day) in the proleptic Gregorian
    calendar. *)
Definition civil_from_days (d : Z) : Z * Z * Z :=
  let z := d + 719468 in
  let era := z `div` 146097 in
  let doe := z - era * 146097 in
  let yoe := (doe - doe `div` 1460 + doe `div` 36524 - doe `div` 146096) `div` 365 in
  let doy := doe - (365 * yoe + yoe `div` 4 - yoe `div` 100) in
  let mp := (5 * doy + 2) `div` 153 in
  let day := doy - (153 * mp + 2) `div` 5 + 1 in
  let month := if mp <? 10 then mp + 3 else mp - 9 in
  let year := yoe + era * 400 + (if month <=? 2 then 1 else 0) in
  (year, month, day).

Definition days_from_civil (y m d : Z) : Z :=
  let y' := if m <=? 2 then y - 1 else y in
  let era := y' `div` 400 in
  let yoe := y' - era * 400 in
  let doy := (153 * (if 2 <? m then m - 3 else m + 9) + 2) `div` 5 + d - 1 in
  let doe := yoe * 365 + yoe `div` 4 - yoe `div` 100 + doy in
  era * 146097 + doe - 719468.

(** [Timestamp.year] *)
Definition year_of (t : Timestamp) : Z :=
  (civil_from_days (ns t `div` ns_per_day)).1.1.

(** ** Text *)

(** [str.lower] on the ASCII letters. *)
Definition ascii_lower (c : ascii) : ascii :=
  let n := Ascii.N_of_ascii c in
  if ((65 <=? n) && (n <=? 90))%N then Ascii.ascii_of_N (n + 32) else c.

Fixpoint lower (s : string) : string :=
  match s with
  | EmptyString => EmptyString
  | String c s' => String (ascii_lower c) (lower s')
  end.

(** The order pandas sorts the values of a column in: strings by code
    point, timestamps by time.  A text column never mixes the two; strings
    are put first to make the order total. *)
Definition scalar_lt (x y : scalar) : bool :=
  match x, y with
  | StrVal a, StrVal b => String.ltb a b
  | TsVal a, TsVal b => ns a <? ns b
  | StrVal _, TsVal _ => true
  | TsVal _, StrVal _ => false
  end.

(** ** Counting and sorting *)

Section Tally.
Context {A : Type} `{EqDecision A}.

(** The non-missing cells of a column, in order. *)
Definition dropna (xs : list (option A)) : list A := omap id xs.

Definition occurrences (k : A) (xs : list A) : nat :=
  length (filter (λ x, x = k) xs).

(** One more sighting of [k]: its counter goes up where it is, a key not
    seen before goes to the end of the table. *)
Fixpoint bump (k : A) (tbl : list (A * nat)) : list (A * nat) :=
  match tbl with
  | [] => [(k, 1%nat)]
  | (k', n) :: tbl' =>
      if decide (k = k') then (k', S n) :: tbl' else (k', n) :: bump k tbl'
  end.

(** The counting pass over a column: distinct values in order of first
    appearance, each with its number of occurrences. *)
Definition tally (xs : list A) : list (A * nat) :=
  foldl (λ tbl k, bump k tbl) [] xs.

Definition max_count (tbl : list (A * nat)) : nat :=
  foldr (λ e m, e.2 `max` m)%nat 0%nat tbl.

End Tally.

Section InsertionSort.
Context {A : Type} (before : A → A → bool).

(** [x] goes in front of the first element that is not strictly before it,
    so elements that compare equal keep the order they arrived in. *)
Fixpoint insert_sorted (x : A) (l : list A) : list A :=
  match l with
  | [] => [x]
  | y :: l' => if before y x then y :: insert_sorted x l' else x :: y :: l'
  end.

Definition stable_sort (l : list A) : list A := foldr insert_sorted [] l.

End InsertionSort.

(** Larger counts first. *)
Definition count_desc {A} (x y : A * nat) : bool := (y.2 <? x.2)%nat.

(** Smaller group keys first. *)
Definition key_asc {B} (x y : Z * B) : bool := x.1 <? y.1.

(** ** Series operations *)

Definition notnull (s : Series) : list bool :=
  (λ c, bool_decide (is_Some c)) <$> values s.

Definition any (bs : list bool) : bool := existsb id bs.

(** [s.str.lower()]: only an object column has the [.str] accessor; what
    is not a string becomes missing. *)
Definition str_lower (s : Series) : result Series :=
  match dtype s with
  | object =>
      Ok {| dtype := object;
            values := (λ c, match c with
                            | Some (StrVal x) => Some (StrVal (lower x))
                            | _ => None
                            end) <$> values s |}
  | datetime64 => Raise (AttributeError "Can only use .str accessor with string values")
  end.

(** [s == label], cell by cell; a missing cell equals nothing. *)
Definition eq_str (s : Series) (label : string) : list bool :=
  (λ c, bool_decide (c = Some (StrVal label))) <$> values s.

(** [s.dt.year]: only a datetime column has the [.dt] accessor. *)
Definition dt_year (s : Series) : result (list (option Z)) :=
  match dtype s with
  | datetime64 =>
      Ok ((λ c, match c with
                | Some (TsVal t) => Some (year_of t)
                | _ => None
                end) <$> values s)
  | object => Raise (AttributeError "Can only use .dt accessor with datetimelike values")
  end.

(** [s.value_counts()]: missing cells dropped, one entry per distinct
    value, larger counts first.  The counting pass lists the values in order
    of first appearance and the sort by count is taken to keep entries with
    equal counts in that order. *)
Definition value_counts (s : Series) : list (scalar * nat) :=
  stable_sort count_desc (tally (dropna (values s))).

(** [s.mode()]: the values with the highest count, in ascending order. *)
Definition mode (s : Series) : Series :=
  let tbl := tally (dropna (values s)) in
  {| dtype := dtype s;
     values := Some <$> stable_sort scalar_lt
                 (filter (λ e, e.2 = max_count tbl) tbl).*1 |}.

(** [s[0]] on a series with the default index. *)
Definition item0 (s : Series) : result (option scalar) :=
  match values s with
  | c :: _ => Ok c
  | [] => Raise (KeyError "0")
  end.

(** [pd.concat([s1, s2])] *)
Definition concat (s1 s2 : Series) : Series :=
  {| dtype := match dtype s1, dtype s2 with
              | datetime64, datetime64 => datetime64
              | _, _ => object
              end;
     values := values s1 ++ values s2 |}.

(** [df.groupby(keys).size().reset_index(...)]: rows with a missing key are
    left out, the groups come in ascending key order. *)
Definition groupby_size (keys : list (option Z)) : list (Z * nat) :=
  stable_sort key_asc (tally (dropna keys)).

(** [.head(n)] *)
Definition head_n {A} (n : nat) (l : list A) : list A := take n l.

(** ** Frame operations *)

(** [df[col]] *)
Definition getitem (df : DataFrame) (col : string) : result Series :=
  match columns df !! col with
  | Some s => Ok s
  | None => Raise (KeyError col)
  end.

(** [df[col] = s] *)
Definition setitem (df : DataFrame) (col : string) (s : Series) : DataFrame :=
  {| index_len := index_len df; columns := <[col := s]> (columns df) |}.

(** [df[col] = None]: the scalar is broadcast over the index. *)
Definition setitem_none (df : DataFrame) (col : string) : DataFrame :=
  setitem df col {| dtype := object; values := replicate (index_len df) None |}.

Definition select (mask : list bool) {A} (xs : list A) : list A :=
  (filter (λ p, p.1 = true) (zip mask xs)).*2.

(** [df[mask]]: the rows where the mask holds. *)
Definition getitem_mask (df : DataFrame) (mask : list bool) : DataFrame :=
  {| index_len := length (filter (λ b, b = true) mask);
     columns := (λ s, {| dtype := dtype s; values := select mask (values s) |})
                  <$> columns df |}.

(** [df.shape[0]] and [len(df)] *)
Definition shape0 (df : DataFrame) : nat := index_len df.

(** A column of text fields as an object series. *)
Definition text_series (xs : list (option string)) : Series :=
  {| dtype := object; values := (λ x : option string, StrVal <$> x) <$> xs |}.

(** [pd.read_csv(path)] on the parsed content of a file of text fields. *)
Definition read_csv (f : CsvFile) : DataFrame :=
  {| index_len := csv_rows f; columns := text_series <$> csv_columns f |}.

(** ** The script *)

Inductive ErrorsMode := errors_raise | errors_coerce.

Definition expected_cols : list string :=
  ["Venue"; "City"; "Team 1"; "Team 2"; "Series"; "Match Category";
   "Start Date"; "Toss Winner"].

Section Dashboard.

(** The string-to-timestamp parser behind [pd.to_datetime]; it raises on a
    string it cannot read. *)
Variable parse_datetime : string → result Timestamp.

Definition convert_cell (errors : ErrorsMode) (c : option scalar) : result (option scalar) :=
  match c with
  | None => Ok None
  | Some (TsVal t) => Ok (Some (TsVal t))
  | Some (StrVal s) =>
      match parse_datetime s with
      | Ok t => Ok (Some (TsVal t))
      | Raise e =>
          match errors with
          | errors_coerce => Ok None
          | errors_raise => Raise e
          end
      end
  end.

(** What [errors='coerce'] makes of a cell. *)
Definition coerce_cell (c : option scalar) : option scalar :=
  match c with
  | Some (StrVal s) =>
      match parse_datetime s with
      | Ok t => Some (TsVal t)
      | Raise _ => None
      end
  | c => c
  end.

(** [pd.to_datetime(arg, errors=...)] *)
Definition to_datetime (errors : ErrorsMode) (arg : Series) : result Series :=
  match dtype arg with
  | datetime64 => Ok arg
  | object =>
      vs ← mapM (convert_cell errors) (values arg);
      Ok {| dtype := datetime64; values := vs |}
  end.

(** The loop over [expected_cols]. *)
Definition ensure_expected_cols (matches : DataFrame) : DataFrame :=
  foldl (λ m col,
           match columns m !! col with
           | None => setitem_none m col
           | Some _ => m
           end) matches expected_cols.

(** [load_data()], for the matches table.  The teams, series and venues
    tables are read and returned as they are. *)
Definition load_data (file : CsvFile) : result DataFrame :=
  let matches := ensure_expected_cols (read_csv file) in
  start ← getitem matches "Start Date";
  parsed ← to_datetime errors_coerce start;
  Ok (setitem matches "Start Date" parsed).

End Dashboard.

(** *** KPIs & Metrics *)

Definition total_matches (matches : DataFrame) : nat := shape0 matches.

Definition most_played_venue (matches : DataFrame) : result (option scalar) :=
  venue ← getitem matches "Venue";
  if any (notnull venue) then
    venue ← getitem matches "Venue";
    item0 (mode venue)
  else Ok (Some (StrVal "N/A")).

(** The expression shared by the three category KPIs, for a given label. *)
Definition category_count (label : string) (matches : DataFrame) : result nat :=
  category ← getitem matches "Match Category";
  if any (notnull category) then
    category ← getitem matches "Match Category";
    lowered ← str_lower category;
    Ok (shape0 (getitem_mask matches (eq_str lowered label)))
  else Ok 0%nat.

Definition upcoming_matches : DataFrame → result nat := category_count "upcoming".
Definition live_matches : DataFrame → result nat := category_count "live".
Definition recent_matches : DataFrame → result nat := category_count "recent".

(** The "Matches by Category" chart; [None] when the chart is skipped. *)
Definition category_counts (matches : DataFrame) : result (option (list (scalar * nat))) :=
  category ← getitem matches "Match Category";
  if any (notnull category) then
    category ← getitem matches "Match Category";
    Ok (Some (value_counts category))
  else Ok None.

(** *** Visualizations *)

Definition city_counts (matches : DataFrame) : result (list (scalar * nat)) :=
  city ← getitem matches "City"; Ok (value_counts city).

Definition team_counts (matches : DataFrame) : result (list (scalar * nat)) :=
  team1 ← getitem matches "Team 1";
  team2 ← getitem matches "Team 2";
  Ok (value_counts (concat team1 team2)).

Definition over_years (matches : DataFrame) : result (list (Z * nat)) :=
  start ← getitem matches "Start Date";
  years ← dt_year start;
  Ok (groupby_size years).

Definition venue_counts (matches : DataFrame) : result (list (scalar * nat)) :=
  venue ← getitem matches "Venue"; Ok (value_counts venue).

Definition series_counts (matches : DataFrame) : result (list (scalar * nat)) :=
  series ← getitem matches "Series"; Ok (value_counts series).

Definition toss_counts (matches : DataFrame) : result (list (scalar * nat)) :=
  toss ← getitem matches "Toss Winner"; Ok (value_counts toss).

(** What the four "top 10" charts are given: [team_counts.head(10)],
    [venue_counts.head(10)], [series_counts.head(10)] and
    [toss_counts.head(10)]. *)
Definition top_teams (matches : DataFrame) : result (list (scalar * nat)) :=
  head_n 10 <$> team_counts matches.
Definition top_venues (matches : DataFrame) : result (list (scalar * nat)) :=
  head_n 10 <$> venue_counts matches.
Definition top_series (matches : DataFrame) : result (list (scalar * nat)) :=
  head_n 10 <$> series_counts matches.
Definition top_toss (matches : DataFrame) : result (list (scalar * nat)) :=
  head_n 10 <$> toss_counts matches.

Definition team_detailed_counts (matches : DataFrame) : result (list (scalar * nat)) :=
  team1 ← getitem matches "Team 1";
  team2 ← getitem matches "Team 2";
  Ok (value_counts (concat team1 team2)).

(** *** Tables on display *)

(** [df.head(n)]: the first [n] rows. *)
Definition df_head (n : nat) (df : DataFrame) : DataFrame :=
  {| index_len := n `min` index_len df;
     columns := (λ s, {| dtype := dtype s; values := take n (values s) |}) <$> columns df |}.




(** *** The pages

    A page is modelled by the data it puts on display, in the order of the
    script: metric tiles, tables and charts.  Titles, headings and the static
    texts of the Home and User Profile pages carry no data and are left
    out.  The table selector's choice and the state of its button are
    inputs. *)







(** ** An ISO 8601 calendar-date reader

    One parser the dashboard can be run with: it reads [YYYY-MM-DD] and
    raises on everything else. *)

Definition digit_value (c : ascii) : option Z :=
  let n := Z.of_N (N_of_ascii c) in
  if (48 <=? n) && (n <=? 57) then Some (n - 48) else None.

Definition is_leap (y : Z) : bool :=
  (y `mod` 4 =? 0) && (negb (y `mod` 100 =? 0) || (y `mod` 400 =? 0)).

Definition days_in_month (y m : Z) : Z :=
  if m =? 2 then (if is_leap y then 29 else 28)
  else if (m =? 4) || (m =? 6) || (m =? 9) || (m =? 11) then 30
  else 31.

Definition parse_iso_date (s : string) : result Timestamp :=
  match (λ c, (c, digit_value c)) <$> String.list_ascii_of_string s with
  | [(_, Some y1); (_, Some y2); (_, Some y3); (_, Some y4); ("-"%char, _);
     (_, Some m1); (_, Some m2); ("-"%char, _); (_, Some d1); (_, Some d2)] =>
      let y := 1000 * y1 + 100 * y2 + 10 * y3 + y4 in
      let m := 10 * m1 + m2 in
      let d := 10 * d1 + d2 in
      if (1 <=? m) && (m <=? 12) && (1 <=? d) && (d <=? days_in_month y m)
      then Ok {| ns := days_from_civil y m d * ns_per_day |}
      else Raise (ValueError "day or month is out of range")
  | _ => Raise (ValueError "Unknown datetime string format")
  end.

(** ** Order of appearance *)


(** ** Vocabulary of the statements *)

(** The fields of column [c] as the loader leaves them: those of the file,
    or one missing cell per row when the file has no such column. *)
Definition field_column (file : CsvFile) (c : string) : list (option string) :=
  default (replicate (csv_rows file) None) (csv_columns file !! c).

(** The cells of a text column. *)
Definition text_cells (xs : list (option string)) : list (option scalar) :=
  values (text_series xs).

(** Equality of a field and a label, letter case aside. *)
Definition same_ignoring_case (label : string) (x : option string) : Prop :=
  lower <$> x = Some (lower label).

#[global] Instance same_ignoring_case_dec label x : Decision (same_ignoring_case label x).
Proof. unfold same_ignoring_case. apply _. Defined.


(** The Start Date column after the loader has parsed it. *)
Definition parsed_dates (parse_datetime : string → result Timestamp)
    (xs : list (option string)) : Series :=
  {| dtype := datetime64; values := coerce_cell parse_datetime <$> text_cells xs |}.


(** The frame [load_data] returns for a file. *)
Definition loaded (parse_datetime : string → result Timestamp) (file : CsvFile) : DataFrame :=
  setitem (ensure_expected_cols (read_csv file)) "Start Date"
    (parsed_dates parse_datetime (field_column file "Start Date")).

(** Every column of a frame is as long as the index. *)
Definition frame_wf (df : DataFrame) : Prop :=
  map_Forall (λ _ s, length (values s) = index_len df) (columns df).



(** A string that is [label] in lower case. *)
Definition lowers_to (label : string) (v : scalar) : Prop :=
  match v with
  | StrVal x => lower x = label
  | TsVal _ => False
  end.

#[global] Instance lowers_to_dec label v : Decision (lowers_to label v).
Proof. destruct v; cbn; apply _. Defined.

(** The entries of a frequency table whose value, in lower case, is [label]. *)
Definition labelled (label : string) (e : scalar * nat) : Prop := lowers_to label e.1.

#[global] Instance labelled_dec label e : Decision (labelled label e) :=
  lowers_to_dec label e.1.

(** A Match Category field that is none of the three categories of the
    KPIs, letter case aside, or is missing. *)
Definition other_category (x : option string) : Prop :=
  ¬ same_ignoring_case "upcoming" x ∧ ¬ same_ignoring_case "live" x ∧
  ¬ same_ignoring_case "recent" x.

#[global] Instance other_category_dec x : Decision (other_category x).
Proof. unfold other_category. apply _. Defined.

(** ** Sample files *)

(** Three matches, with the categories and start dates of the scenarios
    and a tie between two venues. *)
Definition csv_scenario : CsvFile :=
  {| csv_rows := 3;
     csv_columns :=
       {[ "Match Category" := [Some "live"; Some "Live"; Some "recent"];
          "Start Date" := [Some "2023-01-05"; Some "not-a-date"; Some "2023-06-01"];
          "Venue" := [Some "Wankhede"; Some "Eden Gardens"; None];
          "Team 1" := [Some "India"; Some "Australia"; Some "India"];
          "Team 2" := [Some "Australia"; Some "England"; Some "India"] ]} |}.

(** Two matches of which nothing is known. *)
Definition csv_no_columns : CsvFile := {| csv_rows := 2; csv_columns := ∅ |}.

(** One match with the same team on both sides. *)
Definition csv_same_team : CsvFile :=
  {| csv_rows := 1;
     csv_columns := {[ "Team 1" := [Some "India"]; "Team 2" := [Some "India"] ]} |}.

(** A file with one row and one column, a start date. *)
Definition csv_one_date : CsvFile :=
  {| csv_rows := 1; csv_columns := {[ "Start Date" := [Some "2023-01-05"] ]} |}.

(** * Facts about counting *)

Section TallyFacts.
Context {A : Type} `{EqDecision A}.
Implicit Types (k x : A) (xs : list A) (tbl : list (A * nat)).

Lemma tally_snoc xs x : tally (xs ++ [x]) = bump x (tally xs).
Proof. unfold tally. by rewrite foldl_snoc. Qed.

Lemma bump_keys k tbl :
  (bump k tbl).*1 = if decide (k ∈ tbl.*1) then tbl.*1 else tbl.*1 ++ [k].
Proof.
  induction tbl as [|[k' n] tbl IH].
  - cbn. by rewrite decide_False by apply not_elem_of_nil.
  - cbn [bump]. rewrite !fmap_cons. cbn [fst].
    destruct (decide (k = k')) as [->|Hne].
    + rewrite decide_True by (apply elem_of_cons; by left). done.
    + rewrite fmap_cons, IH. cbn [fst].
      destruct (decide (k ∈ tbl.*1)) as [Hin|Hout].
      * rewrite decide_True by (apply elem_of_cons; by right). done.
      * rewrite decide_False; [done |].
        rewrite elem_of_cons. intros [?|?]; done.
Qed.

Lemma bump_sum k tbl : sum_list_with snd (bump k tbl) = S (sum_list_with snd tbl).
Proof.
  induction tbl as [|[k' n] tbl IH]; simpl; [done|].
  case_decide; simpl; lia.
Qed.

Lemma tally_sum xs : sum_list_with snd (tally xs) = length xs.
Proof.
  induction xs as [|x xs IH] using rev_ind; [done|].
  rewrite tally_snoc, bump_sum, IH, length_app. simpl. lia.
Qed.

Lemma tally_keys_elem xs k : k ∈ (tally xs).*1 ↔ k ∈ xs.
Proof.
  induction xs as [|x xs IH] using rev_ind; [done|].
  rewrite tally_snoc, bump_keys, elem_of_app, list_elem_of_singleton, <- IH.
  case_decide; [|by rewrite elem_of_app, list_elem_of_singleton].
  split; [auto | intros [?| ->]; done].
Qed.

Lemma tally_keys_NoDup xs : NoDup (tally xs).*1.
Proof.
  induction xs as [|x xs IH] using rev_ind; [constructor|].
  rewrite tally_snoc, bump_keys. case_decide; [done|].
  apply NoDup_app. split_and!; [done | | apply NoDup_singleton].
  intros y Hy ->%list_elem_of_singleton. done.
Qed.

Lemma occurrences_snoc k xs x :
  occurrences k (xs ++ [x]) =
  if decide (x = k) then S (occurrences k xs) else occurrences k xs.
Proof.
  unfold occurrences. rewrite filter_app, length_app, filter_cons, filter_nil.
  case_decide; simpl; lia.
Qed.

Lemma occurrences_cons k xs x :
  occurrences k (x :: xs) =
  if decide (x = k) then S (occurrences k xs) else occurrences k xs.
Proof. unfold occurrences. rewrite filter_cons. by case_decide. Qed.

Lemma occurrences_app k xs ys :
  occurrences k (xs ++ ys) = (occurrences k xs + occurrences k ys)%nat.
Proof. unfold occurrences. by rewrite filter_app, length_app. Qed.

Lemma occurrences_none k xs : k ∉ xs → occurrences k xs = 0%nat.
Proof.
  induction xs as [|x xs IH]; [done|].
  rewrite not_elem_of_cons, occurrences_cons. intros [? ?].
  rewrite decide_False by done. auto.
Qed.

Lemma occurrences_pos k xs : k ∈ xs → (0 < occurrences k xs)%nat.
Proof.
  induction 1 as [|y xs ? IH]; rewrite occurrences_cons.
  - rewrite decide_True by done. lia.
  - case_decide; lia.
Qed.

Lemma bump_counts (f g : A → nat) k tbl :
  NoDup tbl.*1 →
  (∀ k', k' ≠ k → g k' = f k') →
  g k = S (f k) →
  (k ∉ tbl.*1 → f k = 0%nat) →
  Forall (λ e, e.2 = f e.1) tbl →
  Forall (λ e, e.2 = g e.1) (bump k tbl).
Proof.
  intros Hnd Hother Hk. induction tbl as [|[k' n] tbl IH]; simpl; intros Hfresh Hall.
  - constructor; [|done]. simpl. rewrite Hk, Hfresh; [done | apply not_elem_of_nil].
  - apply NoDup_cons in Hnd as [Hk' Hnd]. apply Forall_cons in Hall as [Hn Hall].
    simpl in *. destruct (decide (k = k')) as [->|Hne].
    + constructor; [simpl; by rewrite Hk, Hn|].
      apply Forall_forall. intros [k'' m] Hin. simpl.
      rewrite Forall_forall in Hall. pose proof (Hall _ Hin) as Hm. simpl in Hm.
      rewrite Hother; [done|]. intros ->. apply Hk'.
      apply list_elem_of_fmap. by exists (k', m).
    + constructor; [simpl; by rewrite Hother|].
      apply IH; [done | | done]. intros Hout. apply Hfresh.
      rewrite not_elem_of_cons. done.
Qed.

Lemma tally_counts xs : Forall (λ e, e.2 = occurrences e.1 xs) (tally xs).
Proof.
  induction xs as [|x xs IH] using rev_ind; [constructor|].
  rewrite tally_snoc.
  apply (bump_counts (λ k, occurrences k xs) (λ k, occurrences k (xs ++ [x])));
    [apply tally_keys_NoDup | | | | done].
  - intros k' Hne. rewrite occurrences_snoc. by rewrite decide_False.
  - rewrite occurrences_snoc. by rewrite decide_True.
  - rewrite tally_keys_elem. apply occurrences_none.
Qed.

Lemma tally_elem xs k n : (k, n) ∈ tally xs ↔ k ∈ xs ∧ n = occurrences k xs.
Proof.
  pose proof (tally_counts xs) as Hall. rewrite Forall_forall in Hall. split.
  - intros Hin. split; [|apply (Hall _ Hin)].
    apply tally_keys_elem, list_elem_of_fmap. by exists (k, n).
  - intros [Hin ->]. apply tally_keys_elem, list_elem_of_fmap in Hin as ([k' n] & -> & Hin).
    by rewrite <- (Hall _ Hin).
Qed.




Lemma max_count_ge tbl e : e ∈ tbl → (e.2 ≤ max_count tbl)%nat.
Proof. induction 1; simpl; lia. Qed.

Lemma max_count_attained tbl : tbl ≠ [] → ∃ e, e ∈ tbl ∧ e.2 = max_count tbl.
Proof.
  induction tbl as [|e tbl IH]; [done|]. intros _.
  destruct tbl as [|e' tbl].
  - exists e. split; [by left | simpl; lia].
  - destruct IH as (e0 & Hin & Heq); [done|].
    destruct (decide (max_count (e' :: tbl) ≤ e.2)%nat).
    + exists e. split; [by left|]. cbn [max_count foldr] in *. lia.
    + exists e0. split; [by right|]. cbn [max_count foldr] in *. lia.
Qed.

End TallyFacts.

Lemma occurrences_dropna {A} `{EqDecision A} (w : A) (xs : list (option A)) :
  occurrences (Some w) xs = occurrences w (dropna xs).
Proof.
  unfold dropna. induction xs as [|[x|] xs IH]; simpl; [done | |].
  - rewrite !occurrences_cons, IH.
    destruct (decide (x = w)) as [->|]; [by rewrite decide_True|].
    by rewrite decide_False by congruence.
  - rewrite occurrences_cons, IH. by rewrite decide_False.
Qed.

Lemma occurrences_fmap_inj {A B} `{EqDecision A, EqDecision B} (f : A → B)
    `{!Inj (=) (=) f} (w : A) (xs : list A) :
  occurrences (f w) (f <$> xs) = occurrences w xs.
Proof.
  induction xs as [|x xs IH]; [done|].
  rewrite fmap_cons, !occurrences_cons, IH.
  destruct (decide (x = w)) as [->|]; [by rewrite decide_True|].
  rewrite decide_False; [done|]. by intros ?%(inj f).
Qed.

(** * Facts about the insertion sort *)

Section SortFacts.
Context {A : Type} (before : A → A → bool).
Implicit Types (x y : A) (l : list A).

Lemma insert_sorted_perm x l : insert_sorted before x l ≡ₚ x :: l.
Proof.
  induction l as [|y l IH]; simpl; [done|].
  destruct (before y x); [|done]. rewrite IH. apply Permutation_swap.
Qed.

Lemma stable_sort_perm l : stable_sort before l ≡ₚ l.
Proof.
  induction l as [|y l IH]; simpl; [done|].
  by rewrite insert_sorted_perm, IH.
Qed.



Hypothesis before_asym : ∀ x y, before x y = true → before y x = false.
Hypothesis before_negtrans :
  ∀ x y z, before y x = false → before z y = false → before z x = false.

Lemma insert_sorted_sorted x l :
  StronglySorted (λ a b, before b a = false) l →
  StronglySorted (λ a b, before b a = false) (insert_sorted before x l).
Proof.
  induction 1 as [|y l Hl IH Hy]; simpl.
  - repeat constructor.
  - destruct (before y x) eqn:Hyx.
    + constructor; [done|]. rewrite insert_sorted_perm. constructor; auto.
    + constructor; [by constructor|]. constructor; [done|].
      eapply Forall_impl; [done|]. simpl. eauto.
Qed.

Lemma stable_sort_sorted l :
  StronglySorted (λ a b, before b a = false) (stable_sort before l).
Proof.
  induction l; simpl; [constructor | by apply insert_sorted_sorted].
Qed.

End SortFacts.

(** * Facts about the frequency tables *)

Lemma StronglySorted_mono {A} (R R' : relation A) l :
  (∀ x y, R x y → R' x y) → StronglySorted R l → StronglySorted R' l.
Proof.
  intros HR. induction 1; constructor; [done|].
  eapply Forall_impl; eauto.
Qed.



Section CountsFacts.
Context {A : Type} `{EqDecision A}.
Implicit Types (xs : list A).

Lemma by_count_sorted xs :
  StronglySorted (λ x y, (y.2 ≤ x.2)%nat) (stable_sort count_desc (tally xs)).
Proof.
  eapply StronglySorted_mono; [|apply stable_sort_sorted].
  - intros x y. unfold count_desc. rewrite Nat.ltb_ge. done.
  - intros x y. unfold count_desc. rewrite Nat.ltb_lt, Nat.ltb_ge. lia.
  - intros x y z. unfold count_desc. rewrite !Nat.ltb_ge. lia.
Qed.


Lemma by_count_sum xs : sum_list_with snd (stable_sort count_desc (tally xs)) = length xs.
Proof. by rewrite stable_sort_perm, tally_sum. Qed.

Lemma by_count_elem xs k n :
  (k, n) ∈ stable_sort count_desc (tally xs) ↔ k ∈ xs ∧ n = occurrences k xs.
Proof. by rewrite stable_sort_perm, tally_elem. Qed.

End CountsFacts.


(** * Facts about the loader *)

Lemma mapM_Ok {A B} (f : A → result B) (g : A → B) (l : list A) :
  (∀ x, f x = Ok (g x)) → mapM f l = Ok (g <$> l).
Proof.
  intros Hf. induction l as [|x l IH]; [done|].
  cbn. rewrite Hf. cbn. rewrite IH. done.
Qed.

Lemma text_series_null n :
  text_series (replicate n None) = {| dtype := object; values := replicate n None |}.
Proof. unfold text_series. by rewrite fmap_replicate. Qed.

Lemma ensure_expected_cols_spec df c :
  index_len (ensure_expected_cols df) = index_len df ∧
  columns (ensure_expected_cols df) !! c =
    match columns df !! c with
    | Some s => Some s
    | None =>
        if decide (c ∈ expected_cols)
        then Some {| dtype := object; values := replicate (index_len df) None |}
        else None
    end.
Proof.
  unfold ensure_expected_cols. generalize expected_cols. intros cols. revert df.
  induction cols as [|col cols IH]; intros df; cbn [foldl].
  - split; [done|]. destruct (columns df !! c); [done|].
    by rewrite decide_False by apply not_elem_of_nil.
  - match goal with |- context [foldl ?f ?d cols] => destruct (IH d) as [Hlen Hcol] end.
    rewrite Hlen, Hcol. clear Hlen Hcol IH.
    destruct (columns df !! col) eqn:Hc.
    + split; [done|]. destruct (columns df !! c) eqn:Hcc; [done|].
      assert (c ≠ col) by congruence.
      destruct (decide (c ∈ cols)).
      * rewrite decide_True by (apply elem_of_cons; by right). done.
      * rewrite decide_False; [done|]. rewrite elem_of_cons. intros [?|?]; done.
    + split; [done|]. unfold setitem_none, setitem. simpl.
      destruct (decide (col = c)) as [->|Hne].
      * rewrite lookup_insert_eq, Hc.
        rewrite decide_True by (apply elem_of_cons; by left). done.
      * rewrite lookup_insert_ne by done.
        destruct (columns df !! c) eqn:Hcc; [done|].
        destruct (decide (c ∈ cols)).
        -- rewrite decide_True by (apply elem_of_cons; by right). done.
        -- rewrite decide_False; [done|]. rewrite elem_of_cons. intros [?|?]; done.
Qed.

Lemma backfilled_column file c :
  c ∈ expected_cols →
  columns (ensure_expected_cols (read_csv file)) !! c = Some (text_series (field_column file c)).
Proof.
  intros Hc. destruct (ensure_expected_cols_spec (read_csv file) c) as [_ ->].
  unfold read_csv, field_column. simpl. rewrite lookup_fmap.
  destruct (csv_columns file !! c); simpl; [done|].
  rewrite decide_True by done. by rewrite text_series_null.
Qed.

Section LoaderFacts.
Variable parse_datetime : string → result Timestamp.

Lemma convert_cell_coerce c :
  convert_cell parse_datetime errors_coerce c = Ok (coerce_cell parse_datetime c).
Proof.
  destruct c as [[s|t]|]; simpl; [|done..].
  by destruct (parse_datetime s).
Qed.

Lemma to_datetime_object s :
  dtype s = object →
  to_datetime parse_datetime errors_coerce s =
  Ok {| dtype := datetime64; values := coerce_cell parse_datetime <$> values s |}.
Proof.
  intros Hs. unfold to_datetime. rewrite Hs.
  rewrite (mapM_Ok _ (coerce_cell parse_datetime)) by apply convert_cell_coerce.
  done.
Qed.


Lemma load_data_loaded file : load_data parse_datetime file = Ok (loaded parse_datetime file).
Proof.
  unfold load_data, getitem.
  rewrite backfilled_column by (unfold expected_cols; set_solver).
  cbn [mbind result_bind]. rewrite to_datetime_object by done. done.
Qed.

Lemma loaded_index_len file : index_len (loaded parse_datetime file) = csv_rows file.
Proof.
  unfold loaded, setitem. cbn [index_len].
  by destruct (ensure_expected_cols_spec (read_csv file) "") as [-> _].
Qed.


Lemma loaded_text_column file c :
  c ∈ expected_cols → c ≠ "Start Date" →
  getitem (loaded parse_datetime file) c = Ok (text_series (field_column file c)).
Proof.
  intros Hc Hne. unfold getitem, loaded, setitem. cbn [columns].
  rewrite lookup_insert_ne by done. by rewrite backfilled_column.
Qed.

End LoaderFacts.

(** * The loader *)

Section Loader.
Variable parse_datetime : string → result Timestamp.

(** C1 (as amended): after [load_data], every expected column the file
    lacks is in the table, one missing cell per row; every column of the
    file other than Start Date is in the table as [read_csv] returned it,
    Start Date being replaced by its parsed values; and the back-filling
    loop on its own changes no column of the file. *)
Theorem load_data_backfills (file : CsvFile) :
  ∃ m, load_data parse_datetime file = Ok m ∧
    (∀ c, c ∈ expected_cols → csv_columns file !! c = None →
       ∃ s, columns m !! c = Some s ∧ length (values s) = csv_rows file ∧
            Forall (λ v, v = None) (values s)) ∧
    (∀ c, is_Some (csv_columns file !! c) → c ≠ "Start Date" →
       columns m !! c = columns (read_csv file) !! c) ∧
    (∀ c, is_Some (csv_columns file !! c) →
       columns (ensure_expected_cols (read_csv file)) !! c = columns (read_csv file) !! c).
Proof.
  exists (loaded parse_datetime file). split; [apply load_data_loaded|].
  assert (∀ c, is_Some (csv_columns file !! c) →
    columns (ensure_expected_cols (read_csv file)) !! c = columns (read_csv file) !! c)
    as Hkept.
  { intros c [xs Hxs].
    destruct (ensure_expected_cols_spec (read_csv file) c) as [_ ->].
    unfold read_csv. simpl. by rewrite lookup_fmap, Hxs. }
  split_and!; [|intros c Hc Hne|done].
  - intros c Hc Habs. unfold loaded, setitem. cbn [columns].
    destruct (decide (c = "Start Date")) as [->|Hne].
    + rewrite lookup_insert_eq. eexists. split; [done|].
      unfold parsed_dates, text_cells, text_series, field_column. rewrite Habs. simpl.
      rewrite !fmap_replicate. simpl. rewrite length_replicate. split; [done|].
      by apply Forall_replicate.
    + rewrite lookup_insert_ne by done. rewrite backfilled_column by done.
      eexists. split; [done|]. unfold field_column. rewrite Habs. simpl.
      rewrite fmap_replicate, length_replicate. split; [done|].
      by apply Forall_replicate.
  - unfold loaded, setitem. cbn [columns]. rewrite lookup_insert_ne by done. by apply Hkept.
Qed.


End Loader.

(** C1, the claim as it stands fails: the loader does not leave a Start
    Date column of the file as it was read, it stores timestamps in it. *)
Lemma start_date_not_left_as_read :
  ¬ ∃ m, load_data parse_iso_date csv_one_date = Ok m ∧
         ∀ c, is_Some (csv_columns csv_one_date !! c) →
              columns m !! c = columns (read_csv csv_one_date) !! c.
Proof.
  intros (m & Hm & Hcols). rewrite load_data_loaded in Hm. injection Hm as <-.
  specialize (Hcols "Start Date").
  vm_compute in Hcols. specialize (Hcols (ex_intro _ _ eq_refl)). discriminate.
Qed.

(** * Facts about text columns *)

Lemma any_notnull_false s :
  any (notnull s) = false ↔ Forall (λ c, c = None) (values s).
Proof.
  unfold any, notnull. induction (values s) as [|[v|] cells IH]; simpl.
  - split; [constructor | done].
  - split; [done | by intros [? _]%Forall_cons].
  - rewrite IH. split; [by constructor | by intros [_ ?]%Forall_cons].
Qed.

Lemma text_cells_all_null xs :
  Forall (λ c, c = None) (text_cells xs) ↔ Forall (λ x, x = None) xs.
Proof.
  unfold text_cells, text_series. simpl. rewrite Forall_fmap.
  apply Forall_iff. intros [x|]; simpl; split; congruence.
Qed.

Lemma dropna_text_cells xs : dropna (text_cells xs) = StrVal <$> dropna xs.
Proof.
  unfold text_cells, text_series, dropna. cbn [values].
  induction xs as [|[x|] xs IH]; [done | |].
  - rewrite !fmap_cons. cbn. by rewrite IH.
  - rewrite !fmap_cons. cbn. by rewrite IH.
Qed.

Lemma dropna_nil_iff {A} (xs : list (option A)) :
  dropna xs = [] ↔ Forall (λ x, x = None) xs.
Proof.
  unfold dropna. induction xs as [|[x|] xs IH]; simpl.
  - split; [constructor | done].
  - split; [done | by intros [? _]%Forall_cons].
  - rewrite IH. split; [by constructor | by intros [_ ?]%Forall_cons].
Qed.

Lemma field_column_length file c :
  csv_wf file → length (field_column file c) = csv_rows file.
Proof.
  intros Hwf. unfold field_column. destruct (csv_columns file !! c) eqn:Hc; simpl.
  - by eapply Hwf.
  - apply length_replicate.
Qed.

(** The rows a lower-cased text column selects for a label. *)
Lemma lowered_mask_count xs label :
  length (filter (λ b, b = true)
    (eq_str {| dtype := object;
               values := (λ c, match c with
                               | Some (StrVal x) => Some (StrVal (lower x))
                               | _ => None
                               end) <$> text_cells xs |} label)) =
  length (filter (λ x : option string, lower <$> x = Some label) xs).
Proof.
  unfold eq_str, text_cells, text_series. simpl.
  induction xs as [|x xs IH]; [done|].
  rewrite !fmap_cons, !filter_cons.
  destruct x as [x|]; simpl.
  - destruct (decide (Some (lower x) = Some label)) as [Heq|Hne].
    + rewrite bool_decide_eq_true_2 by congruence.
      rewrite decide_True by done. simpl. by rewrite IH.
    + rewrite bool_decide_eq_false_2 by congruence.
      rewrite decide_False by done. done.
  - exact IH.
Qed.

Lemma filter_all_null {A} (P : option A → Prop) `{!∀ x, Decision (P x)} xs :
  ¬ P None → Forall (λ x, x = None) xs → filter P xs = [].
Proof.
  intros HP. induction 1 as [|x xs -> _ IH]; [done|].
  by rewrite filter_cons, decide_False.
Qed.

Section CategoryFacts.
Variable parse_datetime : string → result Timestamp.

Lemma category_count_loaded file label :
  category_count label (loaded parse_datetime file) =
  Ok (length (filter (λ x : option string, lower <$> x = Some label)
        (field_column file "Match Category"))).
Proof.
  unfold category_count.
  rewrite loaded_text_column by (unfold expected_cols; set_solver || done).
  cbn [mbind result_bind].
  destruct (any (notnull _)) eqn:Hany.
  - cbn [mbind result_bind str_lower text_series dtype values].
    unfold shape0, getitem_mask. cbn [index_len].
    by rewrite <- lowered_mask_count.
  - apply any_notnull_false, text_cells_all_null in Hany.
    rewrite filter_all_null; [done | done | done].
Qed.

End CategoryFacts.




(** * The category KPIs *)

Section CategoryKPIs.
Variable parse_datetime : string → result Timestamp.



(** C9: the "Matches by Category" chart counts the raw values: for the
    column [live, Live, recent] it has three entries of count 1, while the
    live KPI over the same column is 2. *)
Theorem category_chart_is_case_sensitive (file : CsvFile) :
  csv_columns file !! "Match Category" = Some [Some "live"; Some "Live"; Some "recent"] →
  (load_data parse_datetime file ≫= category_counts) =
    Ok (Some [(StrVal "live", 1%nat); (StrVal "Live", 1%nat); (StrVal "recent", 1%nat)]) ∧
  (load_data parse_datetime file ≫= live_matches) = Ok 2%nat ∧
  (load_data parse_datetime file ≫= recent_matches) = Ok 1%nat ∧
  (load_data parse_datetime file ≫= upcoming_matches) = Ok 0%nat.
Proof.
  intros Hcol. rewrite load_data_loaded. cbn [mbind result_bind].
  unfold live_matches, recent_matches, upcoming_matches.
  rewrite !category_count_loaded. unfold category_counts.
  rewrite loaded_text_column by (unfold expected_cols; set_solver || done).
  unfold field_column. rewrite Hcol. done.
Qed.

End CategoryKPIs.

(** * Facts about the mode *)

Lemma string_ltb_false a b : String.ltb b a = false ↔ String.leb a b = true.
Proof.
  unfold String.ltb, String.leb. rewrite (String.compare_antisym a b).
  destruct (String.compare b a); simpl; split; congruence.
Qed.

Lemma scalar_lt_asym x y : scalar_lt x y = true → scalar_lt y x = false.
Proof.
  destruct x as [a|a], y as [b|b]; simpl; try done.
  - intros Hab. apply string_ltb_false. unfold String.ltb, String.leb in *.
    by destruct (String.compare a b).
  - rewrite Z.ltb_lt, Z.ltb_ge. lia.
Qed.

Lemma scalar_lt_negtrans x y z :
  scalar_lt y x = false → scalar_lt z y = false → scalar_lt z x = false.
Proof.
  destruct x as [a|a], y as [b|b], z as [c|c]; simpl; try done.
  - rewrite !string_ltb_false. intros Hab Hbc.
    apply Is_true_true. apply Is_true_true in Hab, Hbc.
    by etrans.
  - rewrite !Z.ltb_ge. lia.
Qed.

#[global] Instance StrVal_inj : Inj (=) (=) StrVal.
Proof. by intros ?? [=]. Qed.

(** The first of the modes of a column that holds a value: it is a value
    of the column, no value occurs more often, and no value that occurs as
    often is sorted before it. *)
Lemma mode_item0 (s : Series) :
  dropna (values s) ≠ [] →
  ∃ v, item0 (mode s) = Ok (Some v) ∧ v ∈ dropna (values s) ∧
    (∀ w, occurrences w (dropna (values s)) ≤ occurrences v (dropna (values s)))%nat ∧
    (∀ w, w ∈ dropna (values s) →
       occurrences w (dropna (values s)) = occurrences v (dropna (values s)) →
       scalar_lt w v = false).
Proof.
  intros Hne. unfold item0, mode. cbn [values].
  set (xs := dropna (values s)) in *. set (tbl := tally xs).
  set (top := filter (λ e : scalar * nat, e.2 = max_count tbl) tbl).
  assert (tbl ≠ []) as Htbl.
  { intros Hnil. pose proof (tally_sum xs) as Hsum. fold tbl in Hsum.
    rewrite Hnil in Hsum. destruct xs; [done | discriminate]. }
  destruct (max_count_attained tbl Htbl) as ([k n] & Hin & Hmax). simpl in Hmax.
  pose proof (stable_sort_perm scalar_lt (top.*1)) as Hperm.
  pose proof (stable_sort_sorted scalar_lt scalar_lt_asym scalar_lt_negtrans (top.*1)) as Hsorted.
  assert (∀ w, w ∈ stable_sort scalar_lt (top.*1) ↔
               w ∈ xs ∧ occurrences w xs = max_count tbl) as Htop.
  { intros w. rewrite Hperm, list_elem_of_fmap. split.
    - intros ([w' m] & -> & [Hm Hw]%list_elem_of_filter). simpl in *.
      apply tally_elem in Hw as [? ->]. done.
    - intros [Hw Hocc]. exists (w, occurrences w xs). split; [done|].
      apply list_elem_of_filter. split; [done | by apply tally_elem]. }
  destruct (stable_sort scalar_lt (top.*1)) as [|v rest] eqn:Hsort.
  { assert (k ∈ @nil scalar) as []%not_elem_of_nil.
    apply Htop. apply tally_elem in Hin as [? ->]. done. }
  exists v. split; [done|].
  destruct (Htop v) as [[Hv Hvmax] _]; [by left|].
  split_and!; [done | |].
  - intros w. rewrite Hvmax. destruct (decide (w ∈ xs)) as [Hw|Hw].
    + apply (max_count_ge tbl (w, occurrences w xs)). by apply tally_elem.
    + rewrite occurrences_none by done. lia.
  - intros w Hw Hocc.
    assert (w ∈ v :: rest) as [->|Hrest]%elem_of_cons.
    { apply Htop. split; [done | congruence]. }
    + destruct (scalar_lt v v) eqn:Hvv; [|done].
      by rewrite (scalar_lt_asym _ _ Hvv) in Hvv.
    + apply StronglySorted_inv in Hsorted as [_ Hall].
      rewrite Forall_forall in Hall. by apply Hall.
Qed.

Lemma text_mode_item0 (xs : list (option string)) :
  ¬ Forall (λ x, x = None) xs →
  ∃ v, item0 (mode (text_series xs)) = Ok (Some (StrVal v)) ∧ Some v ∈ xs ∧
    (∀ w, occurrences (Some w) xs ≤ occurrences (Some v) xs)%nat ∧
    (∀ w, Some w ∈ xs → occurrences (Some w) xs = occurrences (Some v) xs →
          String.leb v w = true).
Proof.
  intros Hnn. destruct (mode_item0 (text_series xs)) as (v & Hitem & Hin & Hmax & Hleast).
  { change (values (text_series xs)) with (text_cells xs).
    rewrite dropna_text_cells. intros Hnil%fmap_nil_inv. by apply Hnn, dropna_nil_iff. }
  change (values (text_series xs)) with (text_cells xs) in *.
  rewrite dropna_text_cells in *.
  apply list_elem_of_fmap in Hin as (v' & -> & Hin).
  assert (∀ w, Some w ∈ xs ↔ w ∈ dropna xs) as Hmem.
  { intros w. unfold dropna. rewrite list_elem_of_omap. split.
    - intros ?. by exists (Some w).
    - by intros ([?|] & ? & [= ->]). }
  exists v'. split_and!; [done | by apply Hmem | |].
  - intros w. specialize (Hmax (StrVal w)).
    by rewrite !(occurrences_fmap_inj StrVal), <- !occurrences_dropna in Hmax.
  - intros w Hw Hocc. apply string_ltb_false.
    apply (Hleast (StrVal w)).
    + apply list_elem_of_fmap. exists w. split; [done | by apply Hmem].
    + by rewrite !(occurrences_fmap_inj StrVal), <- !occurrences_dropna.
Qed.

(** * Facts about the groups by year *)






(** * The venue KPI, the charts *)

Section Aggregations.
Variable parse_datetime : string → result Timestamp.

Lemma most_played_venue_loaded file :
  most_played_venue (loaded parse_datetime file) =
  if decide (Forall (λ x, x = None) (field_column file "Venue"))
  then Ok (Some (StrVal "N/A"))
  else item0 (mode (text_series (field_column file "Venue"))).
Proof.
  unfold most_played_venue.
  rewrite loaded_text_column by (unfold expected_cols; set_solver || done).
  cbn [mbind result_bind].
  destruct (any (notnull _)) eqn:Hany; case_decide as Hnull; try done.
  - apply text_cells_all_null, any_notnull_false in Hnull.
    unfold text_cells in Hnull. congruence.
  - apply any_notnull_false, text_cells_all_null in Hany. done.
Qed.


Lemma counts_loaded file c :
  c ∈ expected_cols → c ≠ "Start Date" →
  (col ← getitem (loaded parse_datetime file) c; Ok (value_counts col)) =
  Ok (value_counts (text_series (field_column file c))).
Proof. intros Hc Hne. by rewrite loaded_text_column. Qed.

Lemma team_counts_loaded file :
  team_counts (loaded parse_datetime file) =
  Ok (value_counts (text_series (field_column file "Team 1" ++ field_column file "Team 2"))).
Proof.
  unfold team_counts.
  rewrite !loaded_text_column by (unfold expected_cols; set_solver || done).
  cbn [mbind result_bind]. do 2 f_equal.
  unfold concat, text_series. cbn [dtype values]. by rewrite fmap_app.
Qed.

End Aggregations.

Section Charts.
Variable parse_datetime : string → result Timestamp.

(** C4: the most-played-venue KPI never raises and never is a missing
    value: when the Venue column holds no value it is the text "N/A",
    otherwise it is a value of the column that no other value outnumbers. *)
Theorem most_played_venue_total (file : CsvFile) :
  let col := field_column file "Venue" in
  ∃ v, (load_data parse_datetime file ≫= most_played_venue) = Ok (Some (StrVal v)) ∧
    (Forall (λ x, x = None) col → v = "N/A") ∧
    (¬ Forall (λ x, x = None) col →
       Some v ∈ col ∧ ∀ w, (occurrences (Some w) col ≤ occurrences (Some v) col)%nat).
Proof.
  intros col. rewrite load_data_loaded. cbn [mbind result_bind].
  rewrite most_played_venue_loaded. fold col. case_decide as Hnull.
  - exists "N/A". by split_and!.
  - destruct (text_mode_item0 col Hnull) as (v & Hv & Hin & Hmax & _).
    exists v. by split_and!.
Qed.




(** C10: the counts of the team table add up to the number of Team 1
    fields plus the number of Team 2 fields that hold a value; the count of
    a team is the number of times it is in Team 1 plus the number of times
    it is in Team 2, so a team on both sides of a row is counted twice for
    that row; and when every row has both teams the counts add up to twice
    the number of rows. *)
Theorem team_counts_total (file : CsvFile) :
  let team1 := field_column file "Team 1" in
  let team2 := field_column file "Team 2" in
  ∃ l, (load_data parse_datetime file ≫= team_counts) = Ok l ∧
    sum_list_with snd l = (length (dropna team1) + length (dropna team2))%nat ∧
    (∀ t n, (StrVal t, n) ∈ l ↔
       (0 < n)%nat ∧ n = (occurrences (Some t) team1 + occurrences (Some t) team2)%nat) ∧
    (csv_wf file → Forall is_Some team1 → Forall is_Some team2 →
       sum_list_with snd l = (2 * csv_rows file)%nat) ∧
    (∀ t, team1 = [Some t] → team2 = [Some t] → l = [(StrVal t, 2%nat)]).
Proof.
  intros team1 team2. eexists. rewrite load_data_loaded. cbn [mbind result_bind].
  split; [apply team_counts_loaded|]. fold team1 team2.
  unfold value_counts. change (values (text_series ?xs)) with (text_cells xs).
  rewrite dropna_text_cells.
  assert (dropna (team1 ++ team2) = dropna team1 ++ dropna team2) as Happ.
  { unfold dropna. apply omap_app. }
  assert (sum_list_with snd (stable_sort count_desc (tally (StrVal <$> dropna (team1 ++ team2)))) =
          (length (dropna team1) + length (dropna team2))%nat) as Hsum.
  { by rewrite by_count_sum, length_fmap, Happ, length_app. }
  split_and!; [done | | |].
  - intros t n. rewrite by_count_elem, (occurrences_fmap_inj StrVal).
    rewrite Happ, occurrences_app, <- !occurrences_dropna. split.
    + intros [(t' & [= <-] & Hin)%list_elem_of_fmap ->]. split; [|done].
      rewrite !occurrences_dropna, <- occurrences_app.
      by apply occurrences_pos.
    + intros [Hpos ->]. split; [|done]. apply list_elem_of_fmap. exists t.
      split; [done|]. destruct (decide (t ∈ dropna team1 ++ dropna team2)) as [|Hout]; [done|].
      rewrite !occurrences_dropna, <- occurrences_app in Hpos.
      rewrite occurrences_none in Hpos by done. lia.
  - intros Hwf H1 H2. rewrite Hsum.
    assert (∀ xs : list (option string), Forall is_Some xs → length (dropna xs) = length xs)
      as Hfull.
    { unfold dropna. induction 1 as [|? ? [? ->] _ IH]; [done|]. cbn. by f_equal. }
    rewrite !Hfull by done. unfold team1, team2.
    rewrite !field_column_length by done. lia.
  - intros t -> ->. cbn. by rewrite decide_True.
Qed.

End Charts.

(** * The theorems at the sample files *)

Lemma load_data_backfills_witness :
  ∃ m, load_data parse_iso_date csv_one_date = Ok m ∧
    (∃ s, columns m !! "Venue" = Some s ∧ length (values s) = 1%nat ∧
          Forall (λ v, v = None) (values s)) ∧
    columns (ensure_expected_cols (read_csv csv_one_date)) !! "Start Date" =
      columns (read_csv csv_one_date) !! "Start Date".
Proof.
  destruct (load_data_backfills parse_iso_date csv_one_date) as (m & Hm & Habsent & _ & Hloop).
  exists m. split; [exact Hm|]. split.
  - apply Habsent; [|reflexivity]. unfold expected_cols. apply elem_of_cons. by left.
  - apply Hloop. vm_compute. by eexists.
Defined.


Lemma most_played_venue_total_witness :
  (∃ v, (load_data parse_iso_date csv_scenario ≫= most_played_venue) = Ok (Some (StrVal v)) ∧
        Some v ∈ field_column csv_scenario "Venue") ∧
  (load_data parse_iso_date csv_no_columns ≫= most_played_venue) = Ok (Some (StrVal "N/A")).
Proof.
  split.
  - destruct (most_played_venue_total parse_iso_date csv_scenario) as (v & Hv & _ & Hsome).
    exists v. split; [exact Hv|]. apply Hsome.
    vm_compute. intros Hnull. by apply Forall_inv in Hnull.
  - destruct (most_played_venue_total parse_iso_date csv_no_columns) as (v & Hv & Hnull & _).
    rewrite <- Hnull; [exact Hv|]. vm_compute. repeat constructor.
Defined.



Lemma csv_scenario_wf : csv_wf csv_scenario.
Proof. apply (bool_decide_unpack _). by vm_compute. Defined.


Lemma category_chart_is_case_sensitive_witness :
  (load_data parse_iso_date csv_scenario ≫= category_counts) =
    Ok (Some [(StrVal "live", 1%nat); (StrVal "Live", 1%nat); (StrVal "recent", 1%nat)]) ∧
  (load_data parse_iso_date csv_scenario ≫= live_matches) = Ok 2%nat.
Proof.
  destruct (category_chart_is_case_sensitive parse_iso_date csv_scenario eq_refl)
    as (Hchart & Hlive & _).
  by split.
Defined.

Lemma csv_same_team_wf : csv_wf csv_same_team.
Proof. apply (bool_decide_unpack _). by vm_compute. Defined.

Lemma team_counts_total_witness :
  ∃ l, (load_data parse_iso_date csv_same_team ≫= team_counts) = Ok l ∧
    l = [(StrVal "India", 2%nat)] ∧ sum_list_with snd l = 2%nat.
Proof.
  destruct (team_counts_total parse_iso_date csv_same_team)
    as (l & Hl & _ & _ & Hfull & Hsame).
  exists l. split; [exact Hl|]. split.
  - by apply Hsame.
  - apply Hfull; [exact csv_same_team_wf | |]; vm_compute; repeat constructor; by eexists.
Defined.

(** * The dashboard at the sample file *)

Example scenario_most_played_venue :
  (load_data parse_iso_date csv_scenario ≫= most_played_venue) =
  Ok (Some (StrVal "Eden Gardens")).
Proof. reflexivity. Qed.

Example scenario_top_teams :
  (load_data parse_iso_date csv_scenario ≫= top_teams) =
  Ok [(StrVal "India", 3%nat); (StrVal "Australia", 2%nat); (StrVal "England", 1%nat)].
Proof. reflexivity. Qed.

Example scenario_top_venues :
  (load_data parse_iso_date csv_scenario ≫= top_venues) =
  Ok [(StrVal "Wankhede", 1%nat); (StrVal "Eden Gardens", 1%nat)].
Proof. reflexivity. Qed.

Example scenario_over_years :
  (load_data parse_iso_date csv_scenario ≫= over_years) = Ok [(2023, 2%nat)].
Proof. reflexivity. Qed.

Example scenario_toss_winner_backfilled :
  (load_data parse_iso_date csv_scenario ≫= λ m, getitem m "Toss Winner") =
  Ok {| dtype := object; values := [None; None; None] |}.
Proof. reflexivity. Qed.

Example errors_raise_propagates :
  to_datetime parse_iso_date errors_raise (text_series [Some "not-a-date"]) =
  Raise (ValueError "Unknown datetime string format").
Proof. reflexivity. Qed.

(** * More on the loader *)

Lemma ensured_column file c s :
  columns (ensure_expected_cols (read_csv file)) !! c = Some s →
  ∃ xs, s = text_series xs ∧
        (csv_columns file !! c = Some xs ∨
         csv_columns file !! c = None ∧ c ∈ expected_cols ∧ xs = replicate (csv_rows file) None).
Proof.
  destruct (ensure_expected_cols_spec (read_csv file) c) as [_ ->].
  unfold read_csv. cbn [columns index_len]. rewrite lookup_fmap.
  destruct (csv_columns file !! c) as [xs|] eqn:Hc; cbn.
  - intros [= <-]. exists xs. split; [done | by left].
  - case_decide; [|done]. intros [= <-]. eexists. split; [by rewrite text_series_null|].
    by right.
Qed.

Section LoaderInvariants.
Variable parse_datetime : string → result Timestamp.

(** X1: a file whose columns have one field per row loads into a frame
    with as many rows as the file, all of whose columns (those of the file,
    those the loader adds, and the parsed Start Date) have one cell per row. *)
Theorem load_data_frame_wf (file : CsvFile) :
  csv_wf file →
  ∃ m, load_data parse_datetime file = Ok m ∧
       index_len m = csv_rows file ∧ frame_wf m.
Proof.
  intros Hwf. exists (loaded parse_datetime file).
  split; [apply load_data_loaded|]. split; [apply loaded_index_len|].
  intros c s. rewrite loaded_index_len. unfold loaded, setitem. cbn [columns].
  destruct (decide (c = "Start Date")) as [->|Hne].
  - rewrite lookup_insert_eq. intros [= <-].
    unfold parsed_dates, text_cells, text_series. cbn [values].
    by rewrite !length_fmap, field_column_length.
  - rewrite lookup_insert_ne by done.
    intros (xs & -> & [Hxs|(_ & _ & ->)])%ensured_column;
      unfold text_series; cbn [values]; rewrite length_fmap.
    + by eapply Hwf.
    + apply length_replicate.
Qed.


End LoaderInvariants.

Lemma load_data_frame_wf_witness :
  ∃ m, load_data parse_iso_date csv_scenario = Ok m ∧
       index_len m = 3%nat ∧ frame_wf m.
Proof. exact (load_data_frame_wf parse_iso_date csv_scenario csv_scenario_wf). Defined.


(** * More on the frequency tables *)

Lemma value_counts_text (xs : list (option string)) :
  let l := value_counts (text_series xs) in
  (∀ x n, (StrVal x, n) ∈ l ↔ (0 < n)%nat ∧ n = occurrences (Some x) xs) ∧
  (∀ e, e ∈ l → ∃ x, e.1 = StrVal x) ∧
  NoDup l.*1 ∧
  StronglySorted (λ a b, (b.2 ≤ a.2)%nat) l ∧
  sum_list_with snd l = length (dropna xs).
Proof.
  intros l. unfold l, value_counts.
  change (values (text_series xs)) with (text_cells xs). rewrite dropna_text_cells.
  split_and!.
  - intros x n. rewrite by_count_elem, (occurrences_fmap_inj StrVal), <- occurrences_dropna.
    split.
    + intros [(x' & [= <-] & Hin)%list_elem_of_fmap ->].
      split; [|done]. rewrite occurrences_dropna. by apply occurrences_pos.
    + intros [Hpos ->]. split; [|done]. apply list_elem_of_fmap. exists x. split; [done|].
      destruct (decide (x ∈ dropna xs)) as [|Hout]; [done|].
      rewrite occurrences_dropna, occurrences_none in Hpos by done. lia.
  - intros [v n] [(x & -> & _)%list_elem_of_fmap _]%by_count_elem. by exists x.
  - rewrite stable_sort_perm. apply tally_keys_NoDup.
  - apply by_count_sorted.
  - by rewrite by_count_sum, length_fmap.
Qed.

(** What [head(k)] leaves out of a table sorted by count is counted no
    more often than what it keeps. *)
Lemma head_n_keeps_largest {A} (k : nat) (l : list (A * nat)) :
  StronglySorted (λ a b, (b.2 ≤ a.2)%nat) l →
  (∀ x y, x ∈ head_n k l → y ∈ drop k l → (y.2 ≤ x.2)%nat) ∧
  ((length l ≤ k)%nat → head_n k l = l).
Proof.
  intros Hsorted. unfold head_n. split.
  - intros x y Hx Hy. rewrite <- (take_drop k l) in Hsorted.
    by eapply (StronglySorted_app_1_elem_of _ _ _ _ _ Hsorted).
  - intros Hlen. by apply take_ge.
Qed.

Section MoreCharts.
Variable parse_datetime : string → result Timestamp.

(** X3: on a table that has not been through the loader the aggregations
    raise: [KeyError] with the name of the column they read when it is not
    in the table, and, for the yearly series, [AttributeError] when Start
    Date is there but holds the strings of the file. *)
Theorem unloaded_table_raises (file : CsvFile) :
  (csv_columns file !! "Venue" = None →
     most_played_venue (read_csv file) = Raise (KeyError "Venue") ∧
     venue_counts (read_csv file) = Raise (KeyError "Venue")) ∧
  (csv_columns file !! "Match Category" = None →
     upcoming_matches (read_csv file) = Raise (KeyError "Match Category") ∧
     live_matches (read_csv file) = Raise (KeyError "Match Category") ∧
     recent_matches (read_csv file) = Raise (KeyError "Match Category") ∧
     category_counts (read_csv file) = Raise (KeyError "Match Category")) ∧
  (csv_columns file !! "City" = None →
     city_counts (read_csv file) = Raise (KeyError "City")) ∧
  (is_Some (csv_columns file !! "Team 1") → csv_columns file !! "Team 2" = None →
     team_counts (read_csv file) = Raise (KeyError "Team 2")) ∧
  (csv_columns file !! "Start Date" = None →
     over_years (read_csv file) = Raise (KeyError "Start Date")) ∧
  (is_Some (csv_columns file !! "Start Date") →
     over_years (read_csv file) =
     Raise (AttributeError "Can only use .dt accessor with datetimelike values")).
Proof.
  unfold most_played_venue, venue_counts, upcoming_matches, live_matches, recent_matches,
    category_count, category_counts, city_counts, team_counts, over_years, getitem, read_csv.
  cbn [columns]. rewrite !lookup_fmap.
  split_and!.
  - by intros ->.
  - by intros ->.
  - by intros ->.
  - by intros [xs ->] ->.
  - by intros ->.
  - by intros [xs ->].
Qed.

(** X4: the "Matches by City" table is not cut: it has exactly one entry
    for every city of the column, with the number of rows of that city,
    larger counts first, and its counts add up to the number of rows that
    have a city. *)
Theorem city_counts_complete (file : CsvFile) :
  let col := field_column file "City" in
  ∃ l, (load_data parse_datetime file ≫= city_counts) = Ok l ∧
    (∀ city n, (StrVal city, n) ∈ l ↔ (0 < n)%nat ∧ n = occurrences (Some city) col) ∧
    NoDup l.*1 ∧
    StronglySorted (λ a b, (b.2 ≤ a.2)%nat) l ∧
    sum_list_with snd l = length (dropna col).
Proof.
  intros col. eexists. rewrite load_data_loaded. cbn [mbind result_bind].
  unfold city_counts. rewrite counts_loaded by (unfold expected_cols; set_solver || done).
  split; [done|]. fold col.
  destruct (value_counts_text col) as (Helem & _ & Hnd & Hsorted & Hsum). done.
Qed.

(** X5: each "top 10" table is the front of the full table of its column,
    what is left out is counted no more often than anything kept, and
    nothing is left out when the column has at most 10 distinct values. *)
Theorem top10_keeps_most_frequent (file : CsvFile) :
  ∃ m, load_data parse_datetime file = Ok m ∧
    ∀ counts top, (counts, top) ∈ [(team_counts, top_teams); (venue_counts, top_venues);
                                   (series_counts, top_series); (toss_counts, top_toss)] →
      ∃ full, counts m = Ok full ∧ top m = Ok (head_n 10 full) ∧
        (∀ x y, x ∈ head_n 10 full → y ∈ drop 10 full → (y.2 ≤ x.2)%nat) ∧
        ((length full ≤ 10)%nat → top m = Ok full).
Proof.
  exists (loaded parse_datetime file). split; [apply load_data_loaded|].
  assert (∀ xs, ∃ full, Ok (value_counts (text_series xs)) = Ok full ∧
    head_n 10 <$> Ok (value_counts (text_series xs)) = Ok (head_n 10 full) ∧
    (∀ x y, x ∈ head_n 10 full → y ∈ drop 10 full → (y.2 ≤ x.2)%nat) ∧
    ((length full ≤ 10)%nat → head_n 10 <$> Ok (value_counts (text_series xs)) = Ok full))
    as Hgen.
  { intros xs. eexists. split; [done|]. split; [done|].
    destruct (value_counts_text xs) as (_ & _ & _ & Hsorted & _).
    destruct (head_n_keeps_largest 10 _ Hsorted) as [Hkept Hall].
    split; [done|]. intros Hlen. cbn [fmap result_fmap]. by rewrite Hall. }
  intros counts top Hin.
  repeat (apply elem_of_cons in Hin as [[= -> ->]|Hin]);
    [..|by apply not_elem_of_nil in Hin];
    unfold top_teams, top_venues, top_series, top_toss,
      venue_counts, series_counts, toss_counts.
  - rewrite team_counts_loaded. apply Hgen.
  - rewrite counts_loaded by (unfold expected_cols; set_solver || done). apply Hgen.
  - rewrite counts_loaded by (unfold expected_cols; set_solver || done). apply Hgen.
  - rewrite counts_loaded by (unfold expected_cols; set_solver || done). apply Hgen.
Qed.

End MoreCharts.

(** * The KPIs and the charts side by side *)

Section TallyFilter.
Context {A : Type} `{EqDecision A} (P : A → Prop) `{!∀ x, Decision (P x)}.



End TallyFilter.


Lemma dropna_full {A} (xs : list (option A)) :
  (length (dropna xs) ≤ length xs)%nat ∧
  (length (dropna xs) = length xs ↔ Forall is_Some xs).
Proof.
  unfold dropna. induction xs as [|[x|] xs [IHle IHeq]]; cbn.
  - split; [lia|]. split; [constructor | done].
  - split; [lia|]. rewrite Forall_cons, <- IHeq. split; [intros; split; [by eexists | lia] | intros [_ ?]; lia].
  - split; [lia|]. split; [lia | intros [[? [=]] _]%Forall_cons].
Qed.





Section KPIsAndCharts.
Variable parse_datetime : string → result Timestamp.






End KPIsAndCharts.

(** * Tables on display and pages *)



(** X10: [head(n)] of a frame whose columns are as long as its index is
    such a frame again, with the same columns and the first [n] cells of
    each; it is the frame itself when the frame has at most [n] rows, and
    taking it twice changes nothing more. *)
Theorem df_head_frame (n : nat) (df : DataFrame) :
  frame_wf df →
  frame_wf (df_head n df) ∧
  index_len (df_head n df) = (n `min` index_len df)%nat ∧
  dom (columns (df_head n df)) = dom (columns df) ∧
  (∀ c s, columns df !! c = Some s →
     ∃ s', columns (df_head n df) !! c = Some s' ∧ dtype s' = dtype s ∧
           ∀ i, (i < n)%nat → values s' !! i = values s !! i) ∧
  ((index_len df ≤ n)%nat → df_head n df = df) ∧
  df_head n (df_head n df) = df_head n df.
Proof.
  intros Hwf. split_and!.
  - intros c s'. unfold df_head. cbn [columns index_len]. rewrite lookup_fmap.
    destruct (columns df !! c) as [s|] eqn:Hc; [|done]. intros [= <-]. cbn [values].
    rewrite length_take. rewrite (Hwf c s Hc). done.
  - done.
  - unfold df_head. cbn [columns]. by rewrite dom_fmap_L.
  - intros c s Hc. unfold df_head. cbn [columns]. rewrite lookup_fmap, Hc.
    eexists. split; [done|]. split; [done|]. intros i Hi. cbn [values].
    by rewrite lookup_take_lt.
  - intros Hlen. destruct df as [len cols]. unfold df_head. cbn [index_len columns] in *.
    f_equal; [lia|]. apply map_eq. intros c. rewrite lookup_fmap.
    destruct (cols !! c) as [[dt vs]|] eqn:Hc; [|done]. cbn. do 2 f_equal.
    apply take_ge. specialize (Hwf c _ Hc). cbn in Hwf. lia.
  - unfold df_head. cbn [index_len columns]. f_equal; [lia|].
    rewrite <- map_fmap_compose. apply map_fmap_ext. intros c s _. cbn.
    f_equal. by rewrite take_take, Nat.min_id.
Qed.

Section Pages.
Variable parse_datetime : string → result Timestamp.






End Pages.

Section MoreLoader.
Variable parse_datetime : string → result Timestamp.

(** X14: the columns of the loaded table are those of the file and the
    eight expected ones, nothing else: a column of the file the script does
    not know is kept, and no column is dropped. *)
Theorem load_data_columns (file : CsvFile) :
  ∃ m, load_data parse_datetime file = Ok m ∧
    ∀ c, is_Some (columns m !! c) ↔ is_Some (csv_columns file !! c) ∨ c ∈ expected_cols.
Proof.
  exists (loaded parse_datetime file). split; [apply load_data_loaded|].
  intros c. unfold loaded, setitem. cbn [columns].
  destruct (decide (c = "Start Date")) as [->|Hne].
  - rewrite lookup_insert_eq. split; [|by eexists].
    intros _. right. unfold expected_cols. set_solver.
  - rewrite lookup_insert_ne by done.
    destruct (ensure_expected_cols_spec (read_csv file) c) as [_ ->].
    unfold read_csv. cbn [columns]. rewrite lookup_fmap.
    destruct (csv_columns file !! c) as [xs|]; cbn.
    + split; [left|]; by eexists.
    + case_decide as Hc.
      * split; [by right | by eexists].
      * split; [by intros [? [=]] | intros [[? [=]]|?]; done].
Qed.

(** X15: on a table whose columns are as long as its index, the counts of
    the detailed team table add up to at most twice the number of matches,
    and no team is counted more than twice per match. *)
Theorem team_detailed_counts_bound (file : CsvFile) :
  csv_wf file →
  ∃ m l, load_data parse_datetime file = Ok m ∧ team_detailed_counts m = Ok l ∧
    (sum_list_with snd l ≤ 2 * total_matches m)%nat ∧
    Forall (λ e, (e.2 ≤ 2 * total_matches m)%nat) l.
Proof.
  intros Hwf. eexists (loaded parse_datetime file), _.
  split; [apply load_data_loaded|].
  change (team_detailed_counts (loaded parse_datetime file))
    with (team_counts (loaded parse_datetime file)).
  split; [apply team_counts_loaded|].
  unfold total_matches, shape0. rewrite loaded_index_len.
  destruct (value_counts_text (field_column file "Team 1" ++ field_column file "Team 2"))
    as (_ & _ & _ & _ & Hsum).
  assert (sum_list_with snd
            (value_counts (text_series (field_column file "Team 1" ++ field_column file "Team 2")))
          ≤ 2 * csv_rows file)%nat as Hle.
  { rewrite Hsum.
    destruct (dropna_full (field_column file "Team 1" ++ field_column file "Team 2")) as [Hlen _].
    rewrite length_app, !field_column_length in Hlen by done. lia. }
  split; [done|]. apply Forall_forall. intros e He.
  pose proof (sum_list_with_in _ snd _ He). lia.
Qed.

End MoreLoader.

(** * The further theorems at the sample files *)

Lemma unloaded_table_raises_witness :
  most_played_venue (read_csv csv_no_columns) = Raise (KeyError "Venue") ∧
  live_matches (read_csv csv_no_columns) = Raise (KeyError "Match Category") ∧
  city_counts (read_csv csv_scenario) = Raise (KeyError "City") ∧
  team_counts (read_csv csv_one_date) = Raise (KeyError "Team 1") ∧
  over_years (read_csv csv_no_columns) = Raise (KeyError "Start Date") ∧
  over_years (read_csv csv_scenario) =
    Raise (AttributeError "Can only use .dt accessor with datetimelike values").
Proof.
  destruct (unloaded_table_raises csv_no_columns) as (Hvenue & Hcat & _ & _ & Hdate & _).
  destruct (unloaded_table_raises csv_scenario) as (_ & _ & Hcity & _ & _ & Hattr).
  split; [by apply Hvenue|]. split; [by apply Hcat|]. split; [by apply Hcity|].
  split; [reflexivity|]. split; [by apply Hdate|].
  apply Hattr. vm_compute. by eexists.
Defined.

Lemma top10_keeps_most_frequent_witness :
  ∃ m full, load_data parse_iso_date csv_scenario = Ok m ∧
    venue_counts m = Ok full ∧ top_venues m = Ok full.
Proof.
  destruct (top10_keeps_most_frequent parse_iso_date csv_scenario) as (m & Hm & Htop).
  destruct (Htop venue_counts top_venues) as (full & Hfull & _ & _ & Hall).
  { apply elem_of_cons. right. apply elem_of_cons. by left. }
  exists m, full. split; [exact Hm|]. split; [exact Hfull|].
  apply Hall. rewrite load_data_loaded in Hm. injection Hm as <-.
  vm_compute in Hfull. injection Hfull as <-. cbn. lia.
Defined.





Lemma read_csv_scenario_wf : frame_wf (read_csv csv_scenario).
Proof. apply (bool_decide_unpack _). by vm_compute. Defined.

Lemma df_head_frame_witness :
  frame_wf (df_head 2 (read_csv csv_scenario)) ∧
  index_len (df_head 2 (read_csv csv_scenario)) = 2%nat ∧
  df_head 3 (read_csv csv_scenario) = read_csv csv_scenario.
Proof.
  destruct (df_head_frame 2 (read_csv csv_scenario) read_csv_scenario_wf) as (Hwf & Hlen & _).
  destruct (df_head_frame 3 (read_csv csv_scenario) read_csv_scenario_wf)
    as (_ & _ & _ & _ & Hall & _).
  split; [exact Hwf|]. split; [exact Hlen|]. apply Hall. cbn. lia.
Defined.



Lemma csv_no_columns_wf : csv_wf csv_no_columns.
Proof. apply (bool_decide_unpack _). by vm_compute. Defined.

Lemma team_detailed_counts_bound_witness :
  ∃ m l, load_data parse_iso_date csv_scenario = Ok m ∧ team_detailed_counts m = Ok l ∧
    (sum_list_with snd l ≤ 2 * total_matches m)%nat.
Proof.
  destruct (team_detailed_counts_bound parse_iso_date csv_scenario csv_scenario_wf)
    as (m & l & Hm & Hl & Hsum & _).
  by exists m, l.
Defined.

Lemma load_data_columns_witness :
  ∃ m, load_data parse_iso_date csv_one_date = Ok m ∧
    is_Some (columns m !! "Toss Winner") ∧ ¬ is_Some (columns m !! "Umpire").
Proof.
  destruct (load_data_columns parse_iso_date csv_one_date) as (m & Hm & Hcols).
  exists m. split; [exact Hm|]. split.
  - apply Hcols. right. unfold expected_cols. set_solver.
  - intros [Hfile|Hexp]%Hcols.
    + vm_compute in Hfile. by destruct Hfile.
    + unfold expected_cols in Hexp. set_solver.
Defined.
